(** * Pomelo: shallow embedding of [src/main.rs]

    Pomelo keeps a list of directory bookmarks in [~/.pomelo/config.toml].
    Each run loads the list, performs one command and (for add, remove and
    edit) writes the list back.  This file embeds the data model, the
    loading and saving of the configuration and [main], and proves the
    specification's claims about them. *)

From Stdlib Require Import String List Bool Arith NArith ZArith Lia.
From Stdlib Require Import Strings.Byte.
Import ListNotations.
Open Scope string_scope.
Open Scope list_scope.
Set Warnings "-register-all".

(** ** Data model *)

(** [PathBuf] on Unix is an [OsString]: an arbitrary byte sequence. *)
Definition PathBuf := list byte.

(** [struct Bookmark { alias: String, path: PathBuf }] *)
Record Bookmark := mkBookmark { alias : string; path : PathBuf }.

(** [struct Config { bookmarks: Vec<Bookmark> }] *)
Record Config := mkConfig { bookmarks : list Bookmark }.

(** ** UTF-8 and [Path::to_str]

    [Path::to_str] on Unix is [str::from_utf8(bytes).ok()].  The validity
    check below follows the well-formed byte sequences accepted by
    [core::str::from_utf8] (no overlong forms, no surrogates, nothing
    above U+10FFFF). *)

Definition in_rng (b : byte) (lo hi : N) : bool :=
  (lo <=? Byte.to_N b)%N && (Byte.to_N b <=? hi)%N.

Definition cont (b : byte) : bool := in_rng b 128 191.

(** For a lead byte of a multi-byte sequence: the range of the second byte
    and the number of bytes after the lead. *)
Definition utf8_lead (n : N) : option (N * N * nat) :=
  if ((194 <=? n) && (n <=? 223))%N then Some (128%N, 191%N, 1)
  else if (n =? 224)%N then Some (160%N, 191%N, 2)
  else if ((225 <=? n) && (n <=? 236))%N then Some (128%N, 191%N, 2)
  else if (n =? 237)%N then Some (128%N, 159%N, 2)
  else if ((238 <=? n) && (n <=? 239))%N then Some (128%N, 191%N, 2)
  else if (n =? 240)%N then Some (144%N, 191%N, 3)
  else if ((241 <=? n) && (n <=? 243))%N then Some (128%N, 191%N, 3)
  else if (n =? 244)%N then Some (128%N, 143%N, 3)
  else None.

Fixpoint utf8_valid (l : list byte) : bool :=
  match l with
  | [] => true
  | b :: r =>
      if (Byte.to_N b <=? 127)%N then utf8_valid r
      else
        match utf8_lead (Byte.to_N b), r with
        | Some (lo, hi, 1), c1 :: r1 => in_rng c1 lo hi && utf8_valid r1
        | Some (lo, hi, 2), c1 :: c2 :: r2 =>
            in_rng c1 lo hi && cont c2 && utf8_valid r2
        | Some (lo, hi, 3), c1 :: c2 :: c3 :: r3 =>
            in_rng c1 lo hi && cont c2 && cont c3 && utf8_valid r3
        | _, _ => false
        end
  end.

(** [Path::to_str]; a Rust [String] is its UTF-8 bytes, here a [string]
    of 8-bit characters. *)
Definition path_to_str (p : PathBuf) : option string :=
  if utf8_valid p then Some (string_of_list_byte p) else None.

(** [PathBuf::from(String)]: the same bytes. *)
Definition path_from_string (s : string) : PathBuf := list_byte_of_string s.

(** ** TOML documents

    The configuration file is modelled at the level of the TOML data model:
    the text written by [toml::to_string] is the document it encodes, and
    [toml::from_str] reads a document back or fails on text that is not
    TOML. *)

Inductive TomlValue :=
| TString (s : string)
| TInteger (z : Z)
| TBoolean (b : bool)
| TArray (l : list TomlValue)
| TTable (kv : list (string * TomlValue)).

Inductive FileText :=
| TomlText (v : TomlValue)   (** text that parses as this TOML document *)
| NotToml.                   (** text that is not TOML *)

Fixpoint table_get (k : string) (kv : list (string * TomlValue))
  : option TomlValue :=
  match kv with
  | [] => None
  | (k', v) :: r => if String.eqb k k' then Some v else table_get k r
  end.

Fixpoint traverse {A B} (f : A -> option B) (l : list A) : option (list B) :=
  match l with
  | [] => Some []
  | x :: r =>
      match f x, traverse f r with
      | Some y, Some ys => Some (y :: ys)
      | _, _ => None
      end
  end.

(** [#[derive(Serialize)]] for [Bookmark] and [Config]; serialising a
    [PathBuf] fails unless it is valid UTF-8 (serde's [impl Serialize for
    Path]: "path contains invalid UTF-8 characters"). *)
Definition encode_bookmark (b : Bookmark) : option TomlValue :=
  match path_to_str (path b) with
  | Some s => Some (TTable [("alias", TString (alias b)); ("path", TString s)])
  | None => None
  end.

Definition encode_config (c : Config) : option TomlValue :=
  match traverse encode_bookmark (bookmarks c) with
  | Some l => Some (TTable [("bookmarks", TArray l)])
  | None => None
  end.

(** [#[derive(Deserialize)]] for [Bookmark]: from a table through the
    derive's [visit_map] (both fields required, unknown keys ignored), or
    from an array through its [visit_seq] (toml's [deserialize_struct]
    falls back to [deserialize_any]): the first two elements are [alias]
    and [path], fewer is an "invalid length" error, and the array
    deserializer does not look at further elements. *)
Definition decode_bookmark (v : TomlValue) : option Bookmark :=
  match v with
  | TTable kv =>
      match table_get "alias" kv, table_get "path" kv with
      | Some (TString a), Some (TString p) =>
          Some (mkBookmark a (path_from_string p))
      | _, _ => None
      end
  | TArray (TString a :: TString p :: _) => Some (mkBookmark a (path_from_string p))
  | _ => None
  end.

Definition decode_config (v : TomlValue) : option Config :=
  match v with
  | TTable kv =>
      match table_get "bookmarks" kv with
      | Some (TArray l) =>
          match traverse decode_bookmark l with
          | Some bs => Some (mkConfig bs)
          | None => None
          end
      | _ => None
      end
  | _ => None
  end.

(** [toml::from_str::<Config>] *)
Definition toml_from_str (t : FileText) : option Config :=
  match t with
  | TomlText v => decode_config v
  | NotToml => None
  end.

(** [toml::to_string::<Config>] *)
Definition toml_to_string (c : Config) : option FileText :=
  match encode_config c with
  | Some v => Some (TomlText v)
  | None => None
  end.

(** ** The world a run sees

    The config file at [~/.pomelo/config.toml], whether the home directory
    is known, whether the directory and file operations of [save_config]
    succeed, the current directory, and what has been printed. *)

Inductive FileState :=
| Absent                     (** no file: [read_to_string] fails *)
| Unreadable                 (** exists but [read_to_string] fails *)
| Present (t : FileText).

(** One line printed by [println!]. *)
Inductive Line :=
| AddedBookmark (a : string)            (** "Added bookmark with alias '{}'" *)
| RemovedBookmark (a : string)          (** "Removed bookmark with alias '{}'" *)
| NoBookmarkFound (a : string)          (** "No bookmark found with alias '{}'" *)
| UpdatedAlias (a n : string)           (** "Updated alias '{}' to '{}'" *)
| NoBookmarks                           (** "You have no bookmarks." *)
| YourBookmarks                         (** "Your bookmarks:" *)
| BookmarkEntry (i : nat) (a : string) (p : PathBuf).
                                        (** "{}. Alias: '{}', Path: '{}'" *)

(** The fields are independent; a real run reads a config file only inside
    an existing [~/.pomelo], and the concrete worlds used below keep
    [config_dir_exists] true whenever [config_file] is not [Absent]. *)
Record World := mkWorld {
  home_found : bool;          (** [dirs::home_dir()] is [Some] *)
  config_dir_exists : bool;   (** [~/.pomelo] exists *)
  dir_creatable : bool;       (** [fs::create_dir_all] succeeds *)
  config_file : FileState;
  file_creatable : bool;      (** [File::create] succeeds *)
  write_fault : option FileState;
      (** [None]: [write_all] succeeds; [Some f]: it fails after a partial
          write that left the file in state [f] *)
  current_dir : option PathBuf;  (** [env::current_dir()] *)
  stdout : list Line
}.

Definition set_dir_exists (w : World) : World :=
  mkWorld (home_found w) true (dir_creatable w) (config_file w)
    (file_creatable w) (write_fault w) (current_dir w) (stdout w).

Definition set_config_file (f : FileState) (w : World) : World :=
  mkWorld (home_found w) (config_dir_exists w) (dir_creatable w) f
    (file_creatable w) (write_fault w) (current_dir w) (stdout w).

Definition push_line (l : Line) (w : World) : World :=
  mkWorld (home_found w) (config_dir_exists w) (dir_creatable w)
    (config_file w) (file_creatable w) (write_fault w) (current_dir w)
    (stdout w ++ [l]).

(** ** A state and panic monad *)

Inductive Fallible (A : Type) :=
| Ok (a : A)
| Panic (msg : string).
Arguments Ok {A} a.
Arguments Panic {A} msg.

Definition IO (A : Type) := World -> World * Fallible A.

Definition ret {A} (a : A) : IO A := fun w => (w, Ok a).

Definition panic {A} (msg : string) : IO A := fun w => (w, Panic msg).

Definition bind {A B} (m : IO A) (k : A -> IO B) : IO B :=
  fun w =>
    match m w with
    | (w', Ok a) => k a w'
    | (w', Panic msg) => (w', Panic msg)
    end.

Notation "x <- m ;; k" := (bind m (fun x => k))
  (at level 61, m at next level, right associativity).
Notation "m ;;; k" := (bind m (fun _ => k))
  (at level 61, right associativity).

Definition get_world : IO World := fun w => (w, Ok w).
Definition modify (f : World -> World) : IO unit := fun w => (f w, Ok tt).

(** [.expect(msg)] on an [Option] *)
Definition expect {A} (o : option A) (msg : string) : IO A :=
  match o with Some a => ret a | None => panic msg end.

Definition println (l : Line) : IO unit := modify (push_line l).

(** ** [get_config_path], [load_or_initialize_config], [save_config] *)

(** The path itself is fixed; what matters is whether it can be computed. *)
Definition get_config_path : IO unit :=
  w <- get_world ;;
  if home_found w then ret tt else panic "Failed to find home directory".

(** [fs::read_to_string(&config_path)] *)
Definition read_to_string : IO (option FileText) :=
  w <- get_world ;;
  match config_file w with
  | Present t => ret (Some t)
  | Absent | Unreadable => ret None
  end.

Definition load_or_initialize_config : IO Config :=
  get_config_path ;;;
  contents <- read_to_string ;;
  match contents with
  | Some t =>
      match toml_from_str t with
      | Some c => ret c
      | None => panic "called `Result::unwrap()` on an `Err` value"
      end
  | None => ret (mkConfig [])
  end.

Definition save_config (c : Config) : IO unit :=
  get_config_path ;;;
  (* [config_path.parent()] of [<home>/.pomelo/config.toml] is [Some] *)
  w <- get_world ;;
  (if config_dir_exists w then ret tt
   else if dir_creatable w then modify set_dir_exists
   else panic "Failed to create config directory") ;;;
  toml <- expect (toml_to_string c) "Failed to serialize the config" ;;
  w <- get_world ;;
  (* [File::create] truncates: the empty text is the empty TOML table *)
  (if file_creatable w then modify (set_config_file (Present (TomlText (TTable []))))
   else panic "Failed to create config file") ;;;
  w <- get_world ;;
  match write_fault w with
  | None => modify (set_config_file (Present toml))
  | Some f => modify (set_config_file f) ;;; panic "Failed to write to config file"
  end.

(** ** The commands *)

Module Cmd.
(** [enum Commands] (the arguments clap parses into it) *)
Inductive Commands :=
| Add (alias : string)
| Remove (alias : string)
| List
| Edit (alias new : string)
| Jump (alias : string).
End Cmd.

(** [bookmarks.iter().position(|bookmark| bookmark.alias == *alias)] *)
Fixpoint position (a : string) (l : list Bookmark) : option nat :=
  match l with
  | [] => None
  | b :: r => if String.eqb (alias b) a then Some 0
              else option_map S (position a r)
  end.

(** [Vec::remove(index)]: [None] when [index >= len], where Rust panics. *)
Fixpoint vec_remove {A} (i : nat) (l : list A) : option (list A) :=
  match i, l with
  | _, [] => None
  | 0, _ :: r => Some r
  | S i', x :: r => option_map (cons x) (vec_remove i' r)
  end.

(** [bookmarks.iter_mut().find(|b| b.alias == *alias)] followed by
    [bookmark.alias = new.clone()]: [None] when nothing is found. *)
Fixpoint find_set_alias (a new : string) (l : list Bookmark)
  : option (list Bookmark) :=
  match l with
  | [] => None
  | b :: r => if String.eqb (alias b) a then Some (mkBookmark new (path b) :: r)
              else option_map (cons b) (find_set_alias a new r)
  end.

(** The in-memory part of the [Remove] arm: the new bookmark list and the
    line it prints. *)
Definition remove_bookmark (a : string) (bs : list Bookmark)
  : Fallible (list Bookmark * Line) :=
  match position a bs with
  | Some index =>
      match vec_remove index bs with
      | Some bs' => Ok (bs', RemovedBookmark a)
      | None => Panic "removal index out of bounds"
      end
  | None => Ok (bs, NoBookmarkFound a)
  end.

(** The in-memory part of the [Edit] arm. *)
Definition edit_bookmark (a new : string) (bs : list Bookmark)
  : list Bookmark * Line :=
  match find_set_alias a new bs with
  | Some bs' => (bs', UpdatedAlias a new)
  | None => (bs, NoBookmarkFound a)
  end.

(** The in-memory part of the [Add] arm: [config.bookmarks.push(bookmark)]. *)
Definition add_bookmark (a : string) (current_dir : PathBuf)
  (bs : list Bookmark) : list Bookmark :=
  bs ++ [mkBookmark a current_dir].

Definition lift {A} (r : Fallible A) : IO A :=
  match r with Ok a => ret a | Panic m => panic m end.

Fixpoint print_entries (index : nat) (bs : list Bookmark) : IO unit :=
  match bs with
  | [] => ret tt
  | b :: r => println (BookmarkEntry (S index) (alias b) (path b)) ;;;
              print_entries (S index) r
  end.

(** [fn main] after [Cli::parse()]. *)
Definition main (command : Cmd.Commands) : IO unit :=
  config <- load_or_initialize_config ;;
  match command with
  | Cmd.Add a =>
      w <- get_world ;;
      current_dir <- expect (current_dir w) "Failed to get current directory" ;;
      let config := mkConfig (add_bookmark a current_dir (bookmarks config)) in
      save_config config ;;;
      println (AddedBookmark a)
  | Cmd.Remove a =>
      r <- lift (remove_bookmark a (bookmarks config)) ;;
      println (snd r) ;;;
      save_config (mkConfig (fst r))
  | Cmd.Edit a new =>
      let r := edit_bookmark a new (bookmarks config) in
      println (snd r) ;;;
      save_config (mkConfig (fst r))
  | Cmd.List =>
      match bookmarks config with
      | [] => println NoBookmarks
      | bs => println YourBookmarks ;;; print_entries 0 bs
      end
  | Cmd.Jump _ => ret tt
  end.

(** A world with a home directory, no [~/.pomelo] yet, and working I/O. *)
Definition fresh_world (cwd : PathBuf) : World :=
  mkWorld true false true Absent true None (Some cwd) [].

(** A world in which [~/.pomelo] exists and the config file is in state
    [f], with working I/O. *)
Definition existing_config (f : FileState) : World :=
  mkWorld true true true f true None (Some [x2f]) [].

(** Running commands one after the other, each as its own process. *)
Fixpoint run_all (cs : list Cmd.Commands) (w : World) : World * Fallible unit :=
  match cs with
  | [] => (w, Ok tt)
  | c :: r => match main c w with
              | (w', Ok _) => run_all r w'
              | (w', Panic m) => (w', Panic m)
              end
  end.

Example end_to_end :
  let home := list_byte_of_string "/home/u" in
  let w := fst (run_all [Cmd.Add "home"; Cmd.List; Cmd.Edit "home" "h"] (fresh_world home)) in
  stdout w = [AddedBookmark "home"; YourBookmarks; BookmarkEntry 1 "home" home;
              UpdatedAlias "home" "h"]
  /\ fst (load_or_initialize_config w) = w
  /\ snd (load_or_initialize_config w) = Ok (mkConfig [mkBookmark "h" home]).
Proof. vm_compute. auto. Qed.

(** ** Serialisation lemmas *)

Definition paths_utf8 (c : Config) : bool :=
  forallb (fun b => utf8_valid (path b)) (bookmarks c).

(** The I/O that [save_config] performs succeeds. *)
Definition save_env_ok (w : World) : Prop :=
  home_found w = true /\ (config_dir_exists w = true \/ dir_creatable w = true)
  /\ file_creatable w = true /\ write_fault w = None.

Lemma decode_encode_bookmark (b : Bookmark) (v : TomlValue) :
  encode_bookmark b = Some v -> decode_bookmark v = Some b.
Proof.
  destruct b as [a p]; unfold encode_bookmark, path_to_str; simpl.
  destruct (utf8_valid p); intros H; inversion H; subst; clear H.
  unfold decode_bookmark; simpl.
  unfold path_from_string; rewrite list_byte_of_string_of_list_byte; reflexivity.
Qed.

Lemma traverse_decode_encode (bs : list Bookmark) (l : list TomlValue) :
  traverse encode_bookmark bs = Some l -> traverse decode_bookmark l = Some bs.
Proof.
  revert l; induction bs as [|b bs IH]; simpl; intros l H.
  - inversion H; reflexivity.
  - destruct (encode_bookmark b) as [v|] eqn:E; [|discriminate].
    destruct (traverse encode_bookmark bs) as [vs|]; [|discriminate].
    inversion H; subst; simpl.
    rewrite (decode_encode_bookmark b v E), (IH vs eq_refl); reflexivity.
Qed.

Lemma traverse_encode_some (bs : list Bookmark) :
  forallb (fun b => utf8_valid (path b)) bs = true ->
  exists l, traverse encode_bookmark bs = Some l.
Proof.
  induction bs as [|b bs IH]; simpl; intros H.
  - eauto.
  - apply andb_true_iff in H as [Hb Hbs].
    destruct (IH Hbs) as [l Hl]; rewrite Hl.
    unfold encode_bookmark, path_to_str; rewrite Hb; eauto.
Qed.

Lemma traverse_encode_none (bs : list Bookmark) :
  forallb (fun b => utf8_valid (path b)) bs = false ->
  traverse encode_bookmark bs = None.
Proof.
  induction bs as [|b bs IH]; simpl; intros H; [discriminate|].
  apply andb_false_iff in H as [Hb|Hbs].
  - unfold encode_bookmark at 1, path_to_str at 1; rewrite Hb; reflexivity.
  - rewrite (IH Hbs); destruct (encode_bookmark b); reflexivity.
Qed.

Lemma toml_roundtrip (c : Config) (t : FileText) :
  toml_to_string c = Some t -> toml_from_str t = Some c.
Proof.
  destruct c as [bs]; unfold toml_to_string, encode_config; simpl.
  destruct (traverse encode_bookmark bs) as [l|] eqn:E; [|discriminate].
  intros H; inversion H; subst; simpl.
  rewrite (traverse_decode_encode bs l E); reflexivity.
Qed.

Lemma toml_to_string_some (c : Config) :
  paths_utf8 c = true -> exists t, toml_to_string c = Some t.
Proof.
  unfold paths_utf8, toml_to_string, encode_config; intros H.
  destruct (traverse_encode_some _ H) as [l Hl]; rewrite Hl; eauto.
Qed.

Lemma toml_to_string_none (c : Config) :
  paths_utf8 c = false -> toml_to_string c = None.
Proof.
  unfold paths_utf8, toml_to_string, encode_config; intros H.
  rewrite (traverse_encode_none _ H); reflexivity.
Qed.

(** The world after [save_config] has led to [toml::to_string]. *)
Definition after_mkdir (w : World) : World :=
  if config_dir_exists w then w else set_dir_exists w.

Lemma save_config_ok (c : Config) (w : World) (t : FileText) :
  save_env_ok w -> toml_to_string c = Some t ->
  save_config c w =
    (set_config_file (Present t)
       (set_config_file (Present (TomlText (TTable []))) (after_mkdir w)), Ok tt).
Proof.
  intros (Hh & Hd & Hc & Hw) Ht.
  unfold save_config, get_config_path, after_mkdir, bind, get_world, ret,
    modify, expect; simpl.
  rewrite Hh.
  destruct (config_dir_exists w) eqn:Hde; [|destruct Hd as [Hd|Hd]; [congruence|rewrite Hd]];
    simpl; rewrite Ht; simpl; rewrite Hc; simpl; rewrite Hw; reflexivity.
Qed.

Lemma save_config_unserialisable (c : Config) (w : World) :
  home_found w = true -> (config_dir_exists w = true \/ dir_creatable w = true) ->
  toml_to_string c = None ->
  save_config c w = (after_mkdir w, Panic "Failed to serialize the config").
Proof.
  intros Hh Hd Ht.
  unfold save_config, get_config_path, after_mkdir, bind, get_world, ret,
    modify, expect; simpl.
  rewrite Hh.
  destruct (config_dir_exists w) eqn:Hde; [|destruct Hd as [Hd|Hd]; [congruence|rewrite Hd]];
    simpl; rewrite Ht; reflexivity.
Qed.

Lemma load_present (w : World) (t : FileText) (c : Config) :
  home_found w = true -> config_file w = Present t -> toml_from_str t = Some c ->
  load_or_initialize_config w = (w, Ok c).
Proof.
  intros Hh Hf Ht.
  unfold load_or_initialize_config, get_config_path, read_to_string, bind,
    get_world, ret; simpl.
  rewrite Hh, Hf, Ht; reflexivity.
Qed.

(** ** C1: round trip through the config file *)

(** The collection containing one bookmark whose path is the single byte
    0x80, which is not UTF-8 (a directory of that name can exist on Linux). *)
Definition non_utf8_config : Config :=
  mkConfig [mkBookmark "x" [x80]].

(** C1 (as stated, refuted): saving [non_utf8_config] panics at
    serialisation, and a later load does not reproduce it. *)
Lemma C1_non_utf8_path_breaks_roundtrip :
  snd (save_config non_utf8_config (fresh_world [x2f])) =
    Panic "Failed to serialize the config"
  /\ snd (load_or_initialize_config (fst (save_config non_utf8_config (fresh_world [x2f]))))
     <> Ok non_utf8_config.
Proof.
  vm_compute. split; [reflexivity | discriminate].
Qed.

(** C1 (amended): when [save_config]'s I/O succeeds, a collection whose
    paths are all valid UTF-8 is saved and loaded back exactly; a collection
    with a non-UTF-8 path makes [save_config] panic at serialisation,
    leaving the config file as it was. *)
Theorem save_load_roundtrip (c : Config) (w : World) :
  save_env_ok w ->
  (paths_utf8 c = true ->
     exists w', save_config c w = (w', Ok tt)
                /\ load_or_initialize_config w' = (w', Ok c))
  /\ (paths_utf8 c = false ->
       snd (save_config c w) = Panic "Failed to serialize the config"
       /\ config_file (fst (save_config c w)) = config_file w).
Proof.
  intros Henv; split; intros Hu.
  - destruct (toml_to_string_some c Hu) as [t Ht].
    rewrite (save_config_ok c w t Henv Ht).
    eexists; split; [reflexivity|].
    apply load_present with t; [destruct Henv as [Hh _]; unfold after_mkdir;
      destruct (config_dir_exists w); exact Hh | reflexivity |].
    apply toml_roundtrip; exact Ht.
  - destruct Henv as (Hh & Hd & _).
    rewrite (save_config_unserialisable c w Hh Hd (toml_to_string_none c Hu)).
    split; [reflexivity|].
    unfold after_mkdir; destruct (config_dir_exists w); reflexivity.
Qed.

Lemma save_load_roundtrip_witness :
  save_env_ok (fresh_world [x2f]) /\
  paths_utf8 (mkConfig [mkBookmark "home" [x2f; x68]]) = true /\
  exists w', save_config (mkConfig [mkBookmark "home" [x2f; x68]]) (fresh_world [x2f]) = (w', Ok tt)
             /\ load_or_initialize_config w' = (w', Ok (mkConfig [mkBookmark "home" [x2f; x68]])).
Proof.
  assert (H : save_env_ok (fresh_world [x2f])).
  { unfold save_env_ok; simpl; auto. }
  split; [exact H|]. split; [reflexivity|].
  apply (proj1 (save_load_roundtrip (mkConfig [mkBookmark "home" [x2f; x68]]) _ H)).
  reflexivity.
Defined.

(** ** First-match lemmas *)

Definition no_alias (a : string) (l : list Bookmark) : Prop :=
  Forall (fun y => alias y <> a) l.

Lemma position_none (a : string) (l : list Bookmark) :
  position a l = None <-> no_alias a l.
Proof.
  unfold no_alias; induction l as [|b l IH]; simpl.
  - split; auto.
  - destruct (String.eqb (alias b) a) eqn:E.
    + apply String.eqb_eq in E; split; [discriminate|intros H; inversion H; congruence].
    + apply String.eqb_neq in E; split.
      * intros H; destruct (position a l); [discriminate|]; constructor; auto; apply IH; auto.
      * intros H; inversion H; subst; rewrite (proj2 IH); auto.
Qed.

Lemma position_app (a : string) (pre l : list Bookmark) :
  position a (pre ++ l) =
    match position a pre with
    | Some k => Some k
    | None => option_map (Nat.add (length pre)) (position a l)
    end.
Proof.
  induction pre as [|b pre IH]; simpl.
  - destruct (position a l); reflexivity.
  - destruct (String.eqb (alias b) a); [reflexivity|].
    rewrite IH; destruct (position a pre); [reflexivity|].
    destruct (position a l); reflexivity.
Qed.

Lemma position_lt (a : string) (l : list Bookmark) (k : nat) :
  position a l = Some k -> k < length l.
Proof.
  revert k; induction l as [|b l IH]; simpl; intros k H; [discriminate|].
  destruct (String.eqb (alias b) a); [inversion H; lia|].
  destruct (position a l) as [k'|]; [|discriminate].
  inversion H; subst; specialize (IH k' eq_refl); lia.
Qed.

Lemma position_first (a : string) (pre post : list Bookmark) (b : Bookmark) :
  alias b = a -> no_alias a pre -> position a (pre ++ b :: post) = Some (length pre).
Proof.
  intros Hb Hpre; rewrite position_app, (proj2 (position_none a pre) Hpre); simpl.
  rewrite Hb, String.eqb_refl; simpl; f_equal; lia.
Qed.

Lemma position_decompose (a : string) (l : list Bookmark) (i : nat) :
  position a l = Some i ->
  exists pre b post, l = pre ++ b :: post /\ length pre = i /\ alias b = a
                     /\ no_alias a pre.
Proof.
  unfold no_alias; revert i; induction l as [|b l IH]; simpl; intros i H; [discriminate|].
  destruct (String.eqb (alias b) a) eqn:E.
  - inversion H; subst; apply String.eqb_eq in E.
    exists [], b, l; repeat split; auto.
  - destruct (position a l) as [k|]; [|discriminate]; inversion H; subst.
    destruct (IH k eq_refl) as (pre & x & post & -> & Hl & Hx & Hpre).
    apply String.eqb_neq in E.
    exists (b :: pre), x, post; repeat split; simpl; auto.
Qed.

Lemma vec_remove_middle {A} (pre post : list A) (x : A) :
  vec_remove (length pre) (pre ++ x :: post) = Some (pre ++ post).
Proof.
  induction pre as [|y pre IH]; simpl; [reflexivity|].
  rewrite IH; reflexivity.
Qed.

Lemma find_set_alias_first (a new : string) (pre post : list Bookmark) (b : Bookmark) :
  alias b = a -> no_alias a pre ->
  find_set_alias a new (pre ++ b :: post) = Some (pre ++ mkBookmark new (path b) :: post).
Proof.
  unfold no_alias; intros Hb Hpre; induction Hpre as [|y pre Hy Hpre IH]; simpl.
  - rewrite Hb, String.eqb_refl; reflexivity.
  - apply String.eqb_neq in Hy; rewrite Hy, IH; reflexivity.
Qed.

Lemma find_set_alias_none (a new : string) (l : list Bookmark) :
  no_alias a l -> find_set_alias a new l = None.
Proof.
  unfold no_alias; intros H; induction H as [|y l Hy Hl IH]; simpl; [reflexivity|].
  apply String.eqb_neq in Hy; rewrite Hy, IH; reflexivity.
Qed.

Lemma nth_error_middle_other {A} (pre post : list A) (x y : A) (j : nat) :
  j <> length pre -> nth_error (pre ++ x :: post) j = nth_error (pre ++ y :: post) j.
Proof.
  revert j; induction pre as [|z pre IH]; intros [|j] Hj; simpl in *; try lia; auto.
Qed.

(** ** C2: remove *)

(** C2: [remove a] deletes exactly the first bookmark with alias [a],
    keeping the others in order, and reports the removal; when no bookmark
    has alias [a] the list is returned unchanged and "not found" is
    reported. *)
Theorem remove_bookmark_first_match (a : string) :
  (forall pre b post, alias b = a -> no_alias a pre ->
     remove_bookmark a (pre ++ b :: post) = Ok (pre ++ post, RemovedBookmark a))
  /\ (forall bs, no_alias a bs -> remove_bookmark a bs = Ok (bs, NoBookmarkFound a)).
Proof.
  split.
  - intros pre b post Hb Hpre; unfold remove_bookmark.
    rewrite (position_first a pre post b Hb Hpre), vec_remove_middle; reflexivity.
  - intros bs Hbs; unfold remove_bookmark.
    rewrite (proj2 (position_none a bs) Hbs); reflexivity.
Qed.

(** The example of the specification: [("x", p1), ("y", p2), ("x", p3)]. *)
Definition p1 : PathBuf := [x2f; x31].
Definition p2 : PathBuf := [x2f; x32].
Definition p3 : PathBuf := [x2f; x33].

Lemma remove_bookmark_first_match_witness :
  remove_bookmark "x" ([] ++ mkBookmark "x" p1 :: [mkBookmark "y" p2; mkBookmark "x" p3])
    = Ok ([mkBookmark "y" p2; mkBookmark "x" p3], RemovedBookmark "x")
  /\ remove_bookmark "nonexistent" [mkBookmark "x" p1; mkBookmark "y" p2]
     = Ok ([mkBookmark "x" p1; mkBookmark "y" p2], NoBookmarkFound "nonexistent").
Proof.
  split.
  - apply (proj1 (remove_bookmark_first_match "x")); [reflexivity | constructor].
  - apply (proj2 (remove_bookmark_first_match "nonexistent")).
    repeat constructor; simpl; discriminate.
Defined.

(** ** C3: rename (the [Edit] command) *)

(** C3: [edit a new] replaces the alias of the first bookmark with alias
    [a] by [new], keeping its path and position and every other bookmark,
    and reports the rename; when no bookmark has alias [a] the list is
    returned unchanged and "not found" is reported. *)
Theorem edit_bookmark_first_match (a new : string) :
  (forall pre b post, alias b = a -> no_alias a pre ->
     edit_bookmark a new (pre ++ b :: post)
       = (pre ++ mkBookmark new (path b) :: post, UpdatedAlias a new))
  /\ (forall bs, no_alias a bs -> edit_bookmark a new bs = (bs, NoBookmarkFound a)).
Proof.
  split.
  - intros pre b post Hb Hpre; unfold edit_bookmark.
    rewrite (find_set_alias_first a new pre post b Hb Hpre); reflexivity.
  - intros bs Hbs; unfold edit_bookmark.
    rewrite (find_set_alias_none a new bs Hbs); reflexivity.
Qed.

Lemma edit_bookmark_first_match_witness :
  edit_bookmark "x" "z" ([] ++ mkBookmark "x" p1 :: [mkBookmark "x" p2])
    = ([mkBookmark "z" p1; mkBookmark "x" p2], UpdatedAlias "x" "z")
  /\ edit_bookmark "q" "z" [mkBookmark "x" p1] = ([mkBookmark "x" p1], NoBookmarkFound "q").
Proof.
  split.
  - apply (proj1 (edit_bookmark_first_match "x" "z")); [reflexivity | constructor].
  - apply (proj2 (edit_bookmark_first_match "q" "z")).
    repeat constructor; simpl; discriminate.
Defined.

(** ** C4: add *)

(** C4: [add a p] on a list of length [N] gives a list of length [N+1]
    whose first [N] elements are the old list and whose last element is the
    bookmark [(a, p)], whatever aliases the list already holds. *)
Theorem add_bookmark_appends (a : string) (p : PathBuf) (bs : list Bookmark) :
  length (add_bookmark a p bs) = S (length bs)
  /\ nth_error (add_bookmark a p bs) (length bs) = Some (mkBookmark a p)
  /\ firstn (length bs) (add_bookmark a p bs) = bs.
Proof.
  unfold add_bookmark; repeat split.
  - rewrite length_app; simpl; lia.
  - rewrite nth_error_app2, Nat.sub_diag by lia; reflexivity.
  - rewrite firstn_app, Nat.sub_diag, firstn_all; simpl; apply app_nil_r.
Qed.

(** ** C10: rename does not check the new alias *)

(** C10: when the first bookmark with alias [a] is at [i] and another
    bookmark [bj] (at [j <> i]) has alias [b], [edit a b] succeeds and the
    result holds alias [b] both at [i] and at [j]; first-match lookups of
    [b] afterwards find the earlier of the renamed bookmark and the first
    bookmark that already had alias [b]. *)
Theorem edit_bookmark_duplicates_alias (a b : string) (bs : list Bookmark)
    (i j : nat) (bj : Bookmark) :
  position a bs = Some i -> nth_error bs j = Some bj -> alias bj = b -> j <> i ->
  snd (edit_bookmark a b bs) = UpdatedAlias a b
  /\ (exists bi, nth_error (fst (edit_bookmark a b bs)) i = Some bi /\ alias bi = b)
  /\ nth_error (fst (edit_bookmark a b bs)) j = Some bj
  /\ exists k, position b bs = Some k
               /\ position b (fst (edit_bookmark a b bs)) = Some (Nat.min i k).
Proof.
  intros Hi Hj Hbj Hji.
  destruct (position_decompose a bs i Hi) as (pre & x & post & Hbs & Hlen & Hx & Hpre).
  assert (Hbk : position b bs <> None).
  { intros Hn; apply position_none in Hn; unfold no_alias in Hn.
    rewrite Forall_forall in Hn.
    apply (Hn bj (nth_error_In _ _ Hj)); exact Hbj. }
  subst bs.
  unfold edit_bookmark; rewrite (find_set_alias_first a b pre post x Hx Hpre); simpl.
  split; [reflexivity|]. split.
  { exists (mkBookmark b (path x)); split; [|reflexivity].
    rewrite nth_error_app2 by lia; rewrite <- Hlen, Nat.sub_diag; reflexivity. }
  split.
  { rewrite <- Hj; apply nth_error_middle_other; lia. }
  rewrite !position_app in *; simpl.
  destruct (position b pre) as [k0|] eqn:Ep.
  - exists k0; split; [reflexivity|].
    pose proof (position_lt b pre k0 Ep); f_equal; lia.
  - simpl in Hbk; rewrite String.eqb_refl; simpl.
    destruct (String.eqb (alias x) b); simpl in *.
    + exists (length pre + 0); split; [reflexivity|]; f_equal; lia.
    + destruct (position b post) as [k'|]; simpl in *; [|congruence].
      exists (length pre + S k'); split; [reflexivity|]; f_equal; lia.
Qed.

Lemma edit_bookmark_duplicates_alias_witness :
  position "a" [mkBookmark "b" p1; mkBookmark "a" p2] = Some 1 /\
  snd (edit_bookmark "a" "b" [mkBookmark "b" p1; mkBookmark "a" p2]) = UpdatedAlias "a" "b"
  /\ (exists bi, nth_error (fst (edit_bookmark "a" "b" [mkBookmark "b" p1; mkBookmark "a" p2])) 1
                   = Some bi /\ alias bi = "b")
  /\ nth_error (fst (edit_bookmark "a" "b" [mkBookmark "b" p1; mkBookmark "a" p2])) 0
       = Some (mkBookmark "b" p1)
  /\ exists k, position "b" [mkBookmark "b" p1; mkBookmark "a" p2] = Some k
               /\ position "b" (fst (edit_bookmark "a" "b" [mkBookmark "b" p1; mkBookmark "a" p2]))
                  = Some (Nat.min 1 k).
Proof.
  split; [reflexivity|].
  apply (edit_bookmark_duplicates_alias "a" "b" _ 1 0 (mkBookmark "b" p1));
    [reflexivity | reflexivity | reflexivity | lia].
Defined.

(** ** Loading *)

Lemma load_keeps_world (w : World) :
  load_or_initialize_config w = (w, snd (load_or_initialize_config w)).
Proof.
  unfold load_or_initialize_config, get_config_path, read_to_string, bind,
    get_world, ret, panic; simpl.
  destruct (home_found w); [|reflexivity].
  destruct (config_file w) as [| |t]; [reflexivity|reflexivity|].
  destruct (toml_from_str t); reflexivity.
Qed.

Lemma main_load_ok (command : Cmd.Commands) (w : World) (c : Config) :
  load_or_initialize_config w = (w, Ok c) ->
  main command w =
    match command with
    | Cmd.Add a =>
        (w0 <- get_world ;;
         current_dir <- expect (current_dir w0) "Failed to get current directory" ;;
         save_config (mkConfig (add_bookmark a current_dir (bookmarks c))) ;;;
         println (AddedBookmark a)) w
    | Cmd.Remove a =>
        (r <- lift (remove_bookmark a (bookmarks c)) ;;
         println (snd r) ;;; save_config (mkConfig (fst r))) w
    | Cmd.Edit a new =>
        (println (snd (edit_bookmark a new (bookmarks c))) ;;;
         save_config (mkConfig (fst (edit_bookmark a new (bookmarks c))))) w
    | Cmd.List =>
        (match bookmarks c with
         | [] => println NoBookmarks
         | bs => println YourBookmarks ;;; print_entries 0 bs
         end) w
    | Cmd.Jump _ => (w, Ok tt)
    end.
Proof.
  intros H; unfold main at 1; unfold bind at 1; rewrite H.
  destruct command; reflexivity.
Qed.

Lemma main_load_panic (command : Cmd.Commands) (w : World) (m : string) :
  load_or_initialize_config w = (w, Panic m) -> main command w = (w, Panic m).
Proof.
  intros H; unfold main at 1; unfold bind at 1; rewrite H; reflexivity.
Qed.

(** ** C5: a missing or unreadable file *)

(** C5: with the home directory known, an absent or unreadable config file
    loads as the empty collection, without a panic. *)
Theorem load_missing_or_unreadable (w : World) :
  home_found w = true ->
  config_file w = Absent \/ config_file w = Unreadable ->
  load_or_initialize_config w = (w, Ok (mkConfig [])).
Proof.
  intros Hh Hf.
  unfold load_or_initialize_config, get_config_path, read_to_string, bind,
    get_world, ret; simpl; rewrite Hh.
  destruct Hf as [Hf|Hf]; rewrite Hf; reflexivity.
Qed.

Lemma load_missing_or_unreadable_witness :
  load_or_initialize_config (fresh_world [x2f]) = (fresh_world [x2f], Ok (mkConfig []))
  /\ load_or_initialize_config (existing_config Unreadable)
     = (existing_config Unreadable, Ok (mkConfig [])).
Proof.
  split; apply load_missing_or_unreadable; simpl; auto.
Defined.

(** ** C6: a corrupt file *)

(** A config file outside the documented schema: the bookmark is written
    as the array [["x", "/1"]] rather than as a table. *)
Definition array_form_file : FileState :=
  Present (TomlText (TTable [("bookmarks", TArray [TArray [TString "x"; TString "/1"]])])).

(** C6 (as stated, refuted): a file whose bookmark does not follow the
    [{ alias = ..., path = ... }] schema still loads, because serde's
    derived [Deserialize] also reads a bookmark from an array. *)
Lemma C6_array_form_loads :
  load_or_initialize_config (existing_config array_form_file)
  = (existing_config array_form_file, Ok (mkConfig [mkBookmark "x" p1])).
Proof. reflexivity. Qed.

(** C6 (amended): with the home directory known, a config file that is
    read but is not TOML, or whose TOML does not deserialize as a [Config],
    makes the load panic (the [unwrap] of [toml::from_str]) instead of
    returning a collection; a bookmark written as the array
    [[alias, path]] is deserialized and loads. *)
Theorem load_corrupt_panics :
  (forall (w : World) (t : FileText),
     home_found w = true -> config_file w = Present t -> toml_from_str t = None ->
     load_or_initialize_config w = (w, Panic "called `Result::unwrap()` on an `Err` value"))
  /\ (forall (w : World) (a p : string),
        home_found w = true ->
        config_file w = Present (TomlText (TTable [("bookmarks", TArray [TArray [TString a; TString p]])])) ->
        load_or_initialize_config w = (w, Ok (mkConfig [mkBookmark a (path_from_string p)]))).
Proof.
  split.
  - intros w t Hh Hf Ht.
    unfold load_or_initialize_config, get_config_path, read_to_string, bind,
      get_world, ret, panic; simpl.
    rewrite Hh, Hf, Ht; reflexivity.
  - intros w a p Hh Hf.
    unfold load_or_initialize_config, get_config_path, read_to_string, bind,
      get_world, ret; simpl.
    rewrite Hh, Hf; reflexivity.
Qed.

Lemma load_corrupt_panics_witness :
  load_or_initialize_config (existing_config (Present NotToml))
    = (existing_config (Present NotToml),
       Panic "called `Result::unwrap()` on an `Err` value")
  /\ load_or_initialize_config
       (existing_config (Present (TomlText (TTable [("bookmarks", TInteger 3%Z)]))))
     = (existing_config (Present (TomlText (TTable [("bookmarks", TInteger 3%Z)]))),
        Panic "called `Result::unwrap()` on an `Err` value")
  /\ load_or_initialize_config
       (existing_config (Present (TomlText (TTable [("bookmarks",
          TArray [TTable [("alias", TString "x")]])]))))
     = (existing_config (Present (TomlText (TTable [("bookmarks",
          TArray [TTable [("alias", TString "x")]])]))),
        Panic "called `Result::unwrap()` on an `Err` value")
  /\ load_or_initialize_config
       (existing_config (Present (TomlText (TTable [("bookmarks",
          TArray [TArray [TString "h"; TString "/"]])]))))
     = (existing_config (Present (TomlText (TTable [("bookmarks",
          TArray [TArray [TString "h"; TString "/"]])]))),
        Ok (mkConfig [mkBookmark "h" (path_from_string "/")])).
Proof.
  split; [|split; [|split]].
  - eapply (proj1 load_corrupt_panics); reflexivity.
  - eapply (proj1 load_corrupt_panics); reflexivity.
  - eapply (proj1 load_corrupt_panics); reflexivity.
  - apply (proj2 load_corrupt_panics); reflexivity.
Defined.

(** ** C9: jump *)

(** C9: [jump] does nothing after the load: the world, including the
    config file and what has been printed, is left as it was; the run
    fails only when loading itself panics. *)
Theorem jump_is_noop (a : string) (w : World) :
  main (Cmd.Jump a) w =
    (w, match snd (load_or_initialize_config w) with
        | Ok _ => Ok tt
        | Panic m => Panic m
        end).
Proof.
  rewrite load_keeps_world at 1.
  destruct (snd (load_or_initialize_config w)) as [c|m] eqn:E.
  - rewrite (main_load_ok (Cmd.Jump a) w c); [reflexivity|].
    rewrite load_keeps_world, E; reflexivity.
  - apply main_load_panic; rewrite load_keeps_world, E; reflexivity.
Qed.

(** ** Runs of [main] that reach [save_config] *)

Lemma bind_step {A B} (m : IO A) (k : A -> IO B) (w w' : World) (x : A) :
  m w = (w', Ok x) -> bind m k w = k x w'.
Proof. intros H; unfold bind; rewrite H; reflexivity. Qed.

Lemma after_mkdir_home (w : World) : home_found (after_mkdir w) = home_found w.
Proof. unfold after_mkdir; destruct (config_dir_exists w); reflexivity. Qed.

Lemma print_entries_config_file (i : nat) (bs : list Bookmark) (w : World) :
  config_file (fst (print_entries i bs w)) = config_file w.
Proof.
  revert i w; induction bs as [|b bs IH]; intros i w; simpl; [reflexivity|].
  unfold bind, println, modify; rewrite IH; reflexivity.
Qed.

(** [save_config] after a [println]: the file holds the serialised
    collection. *)
Lemma println_save_config (l : Line) (c : Config) (w : World) (t : FileText) :
  save_env_ok w -> toml_to_string c = Some t ->
  snd ((println l ;;; save_config c) w) = Ok tt
  /\ config_file (fst ((println l ;;; save_config c) w)) = Present t
  /\ home_found (fst ((println l ;;; save_config c) w)) = true.
Proof.
  intros Henv Ht; unfold bind, println, modify.
  rewrite (save_config_ok c (push_line l w) t); [|exact Henv|exact Ht]; simpl.
  destruct Henv as [Hh _]; repeat split; auto.
  unfold after_mkdir; simpl; destruct (config_dir_exists w); exact Hh.
Qed.

(** ** C7: when the config file is written *)

(** Removing a missing alias, starting without a config file. *)
Definition remove_missing_from_fresh : World * Fallible unit :=
  main (Cmd.Remove "x") (fresh_world [x2f]).

(** C7 (as stated, refuted): starting without a config file, [remove]
    of an alias that is not found reports "not found" and still creates
    the config file, holding an empty [bookmarks] array. *)
Lemma C7_remove_not_found_creates_file :
  config_file (fresh_world [x2f]) = Absent
  /\ stdout (fst remove_missing_from_fresh) = [NoBookmarkFound "x"]
  /\ config_file (fst remove_missing_from_fresh)
     = Present (TomlText (TTable [("bookmarks", TArray [])])).
Proof. vm_compute. auto. Qed.

(** C7 (amended): an absent file loads as the empty collection without
    being created, and [list] and [jump] never change the config file;
    but [remove] and [edit] call [save_config] even when the alias is not
    found, so the unchanged collection is serialised and (re)written, and a
    missing config file is created. *)
Theorem persistence_on_not_found :
  (forall w, home_found w = true -> config_file w = Absent ->
     load_or_initialize_config w = (w, Ok (mkConfig [])))
  /\ (forall w, config_file (fst (main Cmd.List w)) = config_file w)
  /\ (forall a w, config_file (fst (main (Cmd.Jump a) w)) = config_file w)
  /\ (forall a w c, load_or_initialize_config w = (w, Ok c) ->
        no_alias a (bookmarks c) -> save_env_ok w -> paths_utf8 c = true ->
        exists t, toml_to_string c = Some t
          /\ snd (main (Cmd.Remove a) w) = Ok tt
          /\ config_file (fst (main (Cmd.Remove a) w)) = Present t)
  /\ (forall a new w c, load_or_initialize_config w = (w, Ok c) ->
        no_alias a (bookmarks c) -> save_env_ok w -> paths_utf8 c = true ->
        exists t, toml_to_string c = Some t
          /\ snd (main (Cmd.Edit a new) w) = Ok tt
          /\ config_file (fst (main (Cmd.Edit a new) w)) = Present t).
Proof.
  split; [|split; [|split; [|split]]].
  - intros w Hh Hf.
    unfold load_or_initialize_config, get_config_path, read_to_string, bind,
      get_world, ret; simpl; rewrite Hh, Hf; reflexivity.
  - intros w.
    destruct (snd (load_or_initialize_config w)) as [c|m] eqn:E.
    + rewrite (main_load_ok Cmd.List w c) by (rewrite load_keeps_world, E; reflexivity).
      destruct (bookmarks c) as [|b bs]; [reflexivity|].
      unfold bind at 1, println at 1, modify at 1.
      rewrite print_entries_config_file; reflexivity.
    + rewrite (main_load_panic Cmd.List w m) by (rewrite load_keeps_world, E; reflexivity).
      reflexivity.
  - intros a w.
    destruct (snd (load_or_initialize_config w)) as [c|m] eqn:E.
    + rewrite (main_load_ok (Cmd.Jump a) w c) by (rewrite load_keeps_world, E; reflexivity).
      reflexivity.
    + rewrite (main_load_panic (Cmd.Jump a) w m) by (rewrite load_keeps_world, E; reflexivity).
      reflexivity.
  - intros a w [bs] Hl Ha Henv Hu.
    destruct (toml_to_string_some _ Hu) as [t Ht].
    exists t; split; [exact Ht|].
    rewrite (main_load_ok (Cmd.Remove a) w _ Hl); simpl in Ha.
    change (bookmarks (mkConfig bs)) with bs.
    unfold remove_bookmark; rewrite (proj2 (position_none a bs) Ha).
    unfold bind at 1, lift, ret at 1; simpl.
    destruct (println_save_config (NoBookmarkFound a) (mkConfig bs) w t Henv Ht)
      as (H1 & H2 & _); auto.
  - intros a new w [bs] Hl Ha Henv Hu.
    destruct (toml_to_string_some _ Hu) as [t Ht].
    exists t; split; [exact Ht|].
    rewrite (main_load_ok (Cmd.Edit a new) w _ Hl); simpl in Ha.
    change (bookmarks (mkConfig bs)) with bs.
    unfold edit_bookmark; rewrite (find_set_alias_none a new bs Ha); simpl.
    destruct (println_save_config (NoBookmarkFound a) (mkConfig bs) w t Henv Ht)
      as (H1 & H2 & _); auto.
Qed.

Lemma persistence_on_not_found_witness :
  exists t, toml_to_string (mkConfig []) = Some t
    /\ snd (main (Cmd.Remove "x") (fresh_world [x2f])) = Ok tt
    /\ config_file (fst (main (Cmd.Remove "x") (fresh_world [x2f]))) = Present t.
Proof.
  apply (proj1 (proj2 (proj2 (proj2 persistence_on_not_found))) "x" (fresh_world [x2f])
           (mkConfig [])).
  - reflexivity.
  - constructor.
  - unfold save_env_ok; simpl; auto.
  - reflexivity.
Defined.

(** ** C8: aliases are not checked *)

(** [add] with the empty alias. *)
Definition add_empty_alias : World * Fallible unit :=
  main (Cmd.Add "") (fresh_world [x2f]).

(** C8 (as stated, refuted): [add] with the empty alias succeeds and the
    saved collection then holds a bookmark whose alias is empty. *)
Lemma C8_add_accepts_empty_alias :
  snd add_empty_alias = Ok tt
  /\ snd (load_or_initialize_config (fst add_empty_alias))
     = Ok (mkConfig [mkBookmark "" [x2f]]).
Proof. vm_compute. auto. Qed.

(** C8 (amended): neither [add] nor [edit] checks the alias.  [add]
    stores the alias it is given, whatever it is, with the current
    directory as path, and the saved collection is the old one followed by
    that bookmark; [edit] stores the new alias it is given at the first
    match and never changes a path. *)
Theorem aliases_stored_verbatim :
  (forall a p c w, load_or_initialize_config w = (w, Ok c) ->
     current_dir w = Some p -> save_env_ok w ->
     paths_utf8 (mkConfig (add_bookmark a p (bookmarks c))) = true ->
     snd (main (Cmd.Add a) w) = Ok tt
     /\ load_or_initialize_config (fst (main (Cmd.Add a) w))
        = (fst (main (Cmd.Add a) w), Ok (mkConfig (add_bookmark a p (bookmarks c)))))
  /\ (forall a new bs i, position a bs = Some i ->
        exists p, nth_error (fst (edit_bookmark a new bs)) i = Some (mkBookmark new p))
  /\ (forall a new bs, map path (fst (edit_bookmark a new bs)) = map path bs).
Proof.
  split; [|split].
  - intros a p c w Hl Hp Henv Hu.
    destruct (toml_to_string_some _ Hu) as [t Ht].
    rewrite (main_load_ok (Cmd.Add a) w c Hl).
    rewrite (bind_step get_world _ w w w) by reflexivity; cbv beta.
    rewrite Hp, (bind_step (expect (Some p) _) _ w w p) by reflexivity; cbv beta.
    rewrite (bind_step _ _ w _ tt (save_config_ok _ w t Henv Ht)).
    unfold println, modify; simpl.
    split; [reflexivity|].
    apply load_present with t; [|reflexivity|apply toml_roundtrip; exact Ht].
    simpl; rewrite after_mkdir_home; destruct Henv as [Hh _]; exact Hh.
  - intros a new bs i Hi.
    destruct (position_decompose a bs i Hi) as (pre & x & post & -> & Hlen & Hx & Hpre).
    unfold edit_bookmark; rewrite (find_set_alias_first a new pre post x Hx Hpre); simpl.
    exists (path x); rewrite nth_error_app2 by lia; rewrite <- Hlen, Nat.sub_diag; reflexivity.
  - intros a new bs; unfold edit_bookmark.
    destruct (find_set_alias a new bs) as [bs'|] eqn:E; simpl; [|reflexivity].
    revert bs' E; induction bs as [|b bs IH]; simpl; intros bs' E; [discriminate|].
    destruct (String.eqb (alias b) a).
    + inversion E; reflexivity.
    + destruct (find_set_alias a new bs) as [r|]; [|discriminate].
      inversion E; subst; simpl; f_equal; apply IH; reflexivity.
Qed.

Lemma aliases_stored_verbatim_witness :
  snd (main (Cmd.Add "") (fresh_world [x2f])) = Ok tt
  /\ load_or_initialize_config (fst (main (Cmd.Add "") (fresh_world [x2f])))
     = (fst (main (Cmd.Add "") (fresh_world [x2f])),
        Ok (mkConfig (add_bookmark "" [x2f] (bookmarks (mkConfig [])))))
  /\ exists p, nth_error (fst (edit_bookmark "x" "" [mkBookmark "x" p1])) 0
               = Some (mkBookmark "" p).
Proof.
  split; [|split].
  - apply (proj1 aliases_stored_verbatim "" [x2f] (mkConfig []) (fresh_world [x2f]));
      [reflexivity | reflexivity | unfold save_env_ok; simpl; auto | reflexivity].
  - apply (proj1 aliases_stored_verbatim "" [x2f] (mkConfig []) (fresh_world [x2f]));
      [reflexivity | reflexivity | unfold save_env_ok; simpl; auto | reflexivity].
  - apply (proj1 (proj2 aliases_stored_verbatim)); reflexivity.
Defined.

(** ** Further properties of [main] *)

(** The world after a successful [save_config] that wrote [t]. *)
Definition saved (t : FileText) (w : World) : World :=
  set_config_file (Present t)
    (set_config_file (Present (TomlText (TTable []))) (after_mkdir w)).

(** [w] with [ls] printed after what it already printed. *)
Definition appended (ls : list Line) (w : World) : World :=
  mkWorld (home_found w) (config_dir_exists w) (dir_creatable w)
    (config_file w) (file_creatable w) (write_fault w) (current_dir w)
    (stdout w ++ ls).

Lemma saved_env_ok (t : FileText) (w : World) :
  save_env_ok w -> save_env_ok (saved t w).
Proof.
  unfold saved, after_mkdir, save_env_ok; destruct (config_dir_exists w) eqn:E; simpl;
    rewrite ?E; intuition.
Qed.

Lemma push_line_env_ok (l : Line) (w : World) :
  save_env_ok w -> save_env_ok (push_line l w).
Proof. unfold save_env_ok; simpl; tauto. Qed.

Lemma saved_current_dir (t : FileText) (w : World) :
  current_dir (saved t w) = current_dir w.
Proof. unfold saved, after_mkdir; destruct (config_dir_exists w); reflexivity. Qed.

Lemma load_saved (t : FileText) (w : World) (c : Config) :
  home_found w = true -> toml_to_string c = Some t ->
  load_or_initialize_config (saved t w) = (saved t w, Ok c).
Proof.
  intros Hh Ht; apply load_present with t; [|reflexivity|apply toml_roundtrip; exact Ht].
  unfold saved, after_mkdir; destruct (config_dir_exists w); exact Hh.
Qed.

Lemma load_saved_push (t : FileText) (l : Line) (w : World) (c : Config) :
  home_found w = true -> toml_to_string c = Some t ->
  load_or_initialize_config (push_line l (saved t w)) = (push_line l (saved t w), Ok c).
Proof.
  intros Hh Ht; apply load_present with t; [|reflexivity|apply toml_roundtrip; exact Ht].
  unfold saved, after_mkdir; destruct (config_dir_exists w); exact Hh.
Qed.

Lemma println_save_eq (l : Line) (c : Config) (w : World) (t : FileText) :
  save_env_ok w -> toml_to_string c = Some t ->
  (println l ;;; save_config c) w = (saved t (push_line l w), Ok tt).
Proof.
  intros Henv Ht; unfold bind at 1, println, modify.
  rewrite (save_config_ok c (push_line l w) t); [reflexivity|exact Henv|exact Ht].
Qed.

Lemma main_add_ok (a : string) (p : PathBuf) (c : Config) (w : World) (t : FileText) :
  load_or_initialize_config w = (w, Ok c) -> current_dir w = Some p -> save_env_ok w ->
  toml_to_string (mkConfig (add_bookmark a p (bookmarks c))) = Some t ->
  main (Cmd.Add a) w = (push_line (AddedBookmark a) (saved t w), Ok tt).
Proof.
  intros Hl Hp Henv Ht.
  rewrite (main_load_ok (Cmd.Add a) w c Hl).
  rewrite (bind_step get_world _ w w w) by reflexivity; cbv beta.
  rewrite Hp, (bind_step (expect (Some p) _) _ w w p) by reflexivity; cbv beta.
  rewrite (bind_step _ _ w _ tt (save_config_ok _ w t Henv Ht)).
  reflexivity.
Qed.

Lemma main_remove_found (a : string) (pre post : list Bookmark) (b : Bookmark)
    (w : World) (t : FileText) :
  load_or_initialize_config w = (w, Ok (mkConfig (pre ++ b :: post))) ->
  alias b = a -> no_alias a pre -> save_env_ok w ->
  toml_to_string (mkConfig (pre ++ post)) = Some t ->
  main (Cmd.Remove a) w = (saved t (push_line (RemovedBookmark a) w), Ok tt).
Proof.
  intros Hl Hb Hpre Henv Ht.
  rewrite (main_load_ok (Cmd.Remove a) w _ Hl).
  change (bookmarks (mkConfig (pre ++ b :: post))) with (pre ++ b :: post).
  unfold remove_bookmark; rewrite (position_first a pre post b Hb Hpre), vec_remove_middle.
  rewrite (bind_step (lift _) _ w w _) by reflexivity; cbv beta; simpl fst; simpl snd.
  apply println_save_eq; assumption.
Qed.

Lemma main_edit_found (a new : string) (pre post : list Bookmark) (b : Bookmark)
    (w : World) (t : FileText) :
  load_or_initialize_config w = (w, Ok (mkConfig (pre ++ b :: post))) ->
  alias b = a -> no_alias a pre -> save_env_ok w ->
  toml_to_string (mkConfig (pre ++ mkBookmark new (path b) :: post)) = Some t ->
  main (Cmd.Edit a new) w = (saved t (push_line (UpdatedAlias a new) w), Ok tt).
Proof.
  intros Hl Hb Hpre Henv Ht.
  rewrite (main_load_ok (Cmd.Edit a new) w _ Hl).
  change (bookmarks (mkConfig (pre ++ b :: post))) with (pre ++ b :: post).
  unfold edit_bookmark; rewrite (find_set_alias_first a new pre post b Hb Hpre); simpl fst; simpl snd.
  apply println_save_eq; assumption.
Qed.

Lemma appended_app (l1 l2 : list Line) (w : World) :
  appended l2 (appended l1 w) = appended (l1 ++ l2) w.
Proof. unfold appended; simpl; rewrite app_assoc; reflexivity. Qed.

Lemma print_entries_lines (i : nat) (bs : list Bookmark) (w : World) :
  exists L, print_entries i bs w = (appended L w, Ok tt)
    /\ length L = length bs
    /\ forall k b, nth_error bs k = Some b ->
                   nth_error L k = Some (BookmarkEntry (S (i + k)) (alias b) (path b)).
Proof.
  revert i w; induction bs as [|b bs IH]; intros i w; simpl.
  - exists []; split; [unfold appended; rewrite app_nil_r; destruct w; reflexivity|].
    split; [reflexivity|]; intros [|k] x H; discriminate.
  - destruct (IH (S i) (push_line (BookmarkEntry (S i) (alias b) (path b)) w))
      as (L & HL & Hlen & Hnth).
    exists (BookmarkEntry (S i) (alias b) (path b) :: L).
    unfold bind at 1, println, modify; rewrite HL.
    split; [change (push_line (BookmarkEntry (S i) (alias b) (path b)) w)
              with (appended [BookmarkEntry (S i) (alias b) (path b)] w);
            rewrite appended_app; reflexivity|].
    split; [simpl; rewrite Hlen; reflexivity|].
    intros [|k] x H; simpl in H.
    + inversion H; subst; simpl; do 2 f_equal; lia.
    + simpl; rewrite (Hnth k x H); do 2 f_equal; lia.
Qed.

(** [list] on an empty collection prints only "You have no bookmarks." and
    changes nothing else. *)
Theorem list_empty_prints_no_bookmarks (w : World) (c : Config) :
  load_or_initialize_config w = (w, Ok c) -> bookmarks c = [] ->
  main Cmd.List w = (appended [NoBookmarks] w, Ok tt).
Proof.
  intros Hl He; rewrite (main_load_ok Cmd.List w c Hl), He; reflexivity.
Qed.

Lemma list_empty_prints_no_bookmarks_witness :
  main Cmd.List (fresh_world [x2f]) = (appended [NoBookmarks] (fresh_world [x2f]), Ok tt).
Proof. apply (list_empty_prints_no_bookmarks _ (mkConfig [])); reflexivity. Defined.

(** [list] on a non-empty collection prints "Your bookmarks:" and then one
    line per bookmark, in order, numbered from 1, and changes nothing
    else. *)
Theorem list_prints_numbered_entries (w : World) (c : Config) :
  load_or_initialize_config w = (w, Ok c) -> bookmarks c <> [] ->
  exists L, main Cmd.List w = (appended (YourBookmarks :: L) w, Ok tt)
    /\ length L = length (bookmarks c)
    /\ forall k b, nth_error (bookmarks c) k = Some b ->
                   nth_error L k = Some (BookmarkEntry (S k) (alias b) (path b)).
Proof.
  intros Hl Hne; rewrite (main_load_ok Cmd.List w c Hl).
  destruct (bookmarks c) as [|b0 bs] eqn:E; [congruence|].
  destruct (print_entries_lines 0 (b0 :: bs) (push_line YourBookmarks w))
    as (L & HL & Hlen & Hnth).
  exists L; unfold bind at 1, println at 1, modify at 1; rewrite HL.
  split; [change (push_line YourBookmarks w) with (appended [YourBookmarks] w);
          rewrite appended_app; reflexivity|].
  split; [exact Hlen|]; intros k b H; exact (Hnth k b H).
Qed.

Lemma list_prints_numbered_entries_witness :
  exists L,
    main Cmd.List (existing_config (Present (TomlText (TTable [("bookmarks",
      TArray [TTable [("alias", TString "h"); ("path", TString "/")]])]))))
    = (appended (YourBookmarks :: L) (existing_config (Present (TomlText (TTable [("bookmarks",
      TArray [TTable [("alias", TString "h"); ("path", TString "/")]])])))), Ok tt)
    /\ length L = 1
    /\ forall k b, nth_error [mkBookmark "h" [x2f]] k = Some b ->
                   nth_error L k = Some (BookmarkEntry (S k) (alias b) (path b)).
Proof.
  apply (list_prints_numbered_entries _ (mkConfig [mkBookmark "h" [x2f]])).
  - reflexivity.
  - discriminate.
Defined.

(** Without a home directory every command panics with "Failed to find
    home directory" before doing anything: nothing is printed or written. *)
Theorem no_home_dir_aborts (command : Cmd.Commands) (w : World) :
  home_found w = false -> main command w = (w, Panic "Failed to find home directory").
Proof.
  intros Hh; apply main_load_panic.
  unfold load_or_initialize_config, get_config_path, bind, get_world, panic; simpl.
  rewrite Hh; reflexivity.
Qed.

Lemma no_home_dir_aborts_witness :
  main (Cmd.Add "x") (mkWorld false false true Absent true None (Some [x2f]) [])
  = (mkWorld false false true Absent true None (Some [x2f]) [],
     Panic "Failed to find home directory").
Proof. apply no_home_dir_aborts; reflexivity. Defined.

Lemma vec_remove_in_bounds {A} (i : nat) (l : list A) :
  i < length l -> exists l', vec_remove i l = Some l'.
Proof.
  revert i; induction l as [|x l IH]; intros [|i] H; simpl in *; try lia.
  - exists l; reflexivity.
  - destruct (IH i) as [l' Hl']; [lia|]; rewrite Hl'; exists (x :: l'); reflexivity.
Qed.

(** The [Vec::remove] of the [Remove] arm never panics: the index found by
    [position] is always in bounds. *)
Theorem remove_bookmark_never_panics (a : string) (bs : list Bookmark) :
  exists r, remove_bookmark a bs = Ok r.
Proof.
  unfold remove_bookmark; destruct (position a bs) as [i|] eqn:E; [|eauto].
  destruct (vec_remove_in_bounds i bs (position_lt a bs i E)) as [l' ->]; eauto.
Qed.

Lemma save_dir_fail (c : Config) (w : World) :
  home_found w = true -> config_dir_exists w = false -> dir_creatable w = false ->
  save_config c w = (w, Panic "Failed to create config directory").
Proof.
  intros Hh Hd Hc.
  unfold save_config, get_config_path, bind, get_world, ret, panic; simpl.
  rewrite Hh, Hd, Hc; reflexivity.
Qed.

(** [save_config] panics without touching the config file when the config
    directory is missing and cannot be created, and when [File::create]
    fails. *)
Theorem save_config_fails_untouched (c : Config) (w : World) :
  home_found w = true ->
  (config_dir_exists w = false -> dir_creatable w = false ->
     save_config c w = (w, Panic "Failed to create config directory"))
  /\ ((config_dir_exists w = true \/ dir_creatable w = true) ->
      paths_utf8 c = true -> file_creatable w = false ->
      snd (save_config c w) = Panic "Failed to create config file"
      /\ config_file (fst (save_config c w)) = config_file w).
Proof.
  intros Hh; split.
  - apply save_dir_fail; assumption.
  - intros Hd Hu Hc.
    destruct (toml_to_string_some c Hu) as [t Ht].
    unfold save_config, get_config_path, bind, get_world, ret, modify, expect, panic; simpl.
    rewrite Hh.
    destruct (config_dir_exists w) eqn:Hde;
      [|destruct Hd as [Hd|Hd]; [congruence|rewrite Hd]];
      simpl; rewrite Ht; simpl; rewrite Hc; simpl; auto.
Qed.

Lemma save_config_fails_untouched_witness :
  save_config (mkConfig []) (mkWorld true false false Absent true None None [])
    = (mkWorld true false false Absent true None None [], Panic "Failed to create config directory")
  /\ snd (save_config (mkConfig []) (mkWorld true true false Absent false None None []))
     = Panic "Failed to create config file"
  /\ config_file (fst (save_config (mkConfig []) (mkWorld true true false Absent false None None [])))
     = Absent.
Proof.
  split.
  - apply (proj1 (save_config_fails_untouched _ (mkWorld true false false Absent true None None []) eq_refl));
      reflexivity.
  - apply (proj2 (save_config_fails_untouched _ (mkWorld true true false Absent false None None []) eq_refl));
      [left|..]; reflexivity.
Defined.

Lemma paths_utf8_app (l1 l2 : list Bookmark) :
  paths_utf8 (mkConfig (l1 ++ l2)) = paths_utf8 (mkConfig l1) && paths_utf8 (mkConfig l2).
Proof. unfold paths_utf8; simpl; apply forallb_app. Qed.

Lemma saved_stdout (t : FileText) (w : World) : stdout (saved t w) = stdout w.
Proof. unfold saved, after_mkdir; destruct (config_dir_exists w); reflexivity. Qed.

(** [add] when the current directory cannot be determined panics with
    "Failed to get current directory" after loading, writing and printing
    nothing. *)
Theorem add_without_current_dir (a : string) (w : World) (c : Config) :
  load_or_initialize_config w = (w, Ok c) -> current_dir w = None ->
  main (Cmd.Add a) w = (w, Panic "Failed to get current directory").
Proof.
  intros Hl Hp; rewrite (main_load_ok (Cmd.Add a) w c Hl).
  rewrite (bind_step get_world _ w w w) by reflexivity; cbv beta.
  rewrite Hp; reflexivity.
Qed.

Lemma add_without_current_dir_witness :
  main (Cmd.Add "x") (mkWorld true false true Absent true None None [])
  = (mkWorld true false true Absent true None None [], Panic "Failed to get current directory").
Proof. apply (add_without_current_dir _ _ (mkConfig [])); reflexivity. Defined.

(** A [remove] that finds its alias prints "Removed ..." and leaves a
    config file from which the collection without that first match is
    loaded. *)
Theorem remove_found_persists (a : string) (pre post : list Bookmark) (b : Bookmark)
    (w : World) :
  load_or_initialize_config w = (w, Ok (mkConfig (pre ++ b :: post))) ->
  alias b = a -> no_alias a pre -> save_env_ok w ->
  paths_utf8 (mkConfig (pre ++ b :: post)) = true ->
  snd (main (Cmd.Remove a) w) = Ok tt
  /\ stdout (fst (main (Cmd.Remove a) w)) = stdout w ++ [RemovedBookmark a]
  /\ snd (load_or_initialize_config (fst (main (Cmd.Remove a) w)))
     = Ok (mkConfig (pre ++ post)).
Proof.
  intros Hl Hb Hpre Henv Hu.
  rewrite paths_utf8_app in Hu; apply andb_true_iff in Hu as [Hu1 Hu2].
  unfold paths_utf8 in Hu2; simpl in Hu2; apply andb_true_iff in Hu2 as [_ Hu2].
  destruct (toml_to_string_some (mkConfig (pre ++ post))) as [t Ht].
  { rewrite paths_utf8_app, Hu1; exact Hu2. }
  rewrite (main_remove_found a pre post b w t Hl Hb Hpre Henv Ht); cbn [fst snd].
  split; [reflexivity|]; split; [rewrite saved_stdout; reflexivity|].
  rewrite (load_saved t (push_line (RemovedBookmark a) w) (mkConfig (pre ++ post))); [reflexivity| |exact Ht].
  destruct Henv as [Hh _]; exact Hh.
Qed.

Lemma remove_found_persists_witness :
  let w := existing_config (Present (TomlText (TTable [("bookmarks", TArray
             [TTable [("alias", TString "x"); ("path", TString "/1")];
              TTable [("alias", TString "y"); ("path", TString "/2")]])]))) in
  snd (main (Cmd.Remove "x") w) = Ok tt
  /\ stdout (fst (main (Cmd.Remove "x") w)) = stdout w ++ [RemovedBookmark "x"]
  /\ snd (load_or_initialize_config (fst (main (Cmd.Remove "x") w)))
     = Ok (mkConfig ([] ++ [mkBookmark "y" p2])).
Proof.
  intros w.
  apply (remove_found_persists "x" [] [mkBookmark "y" p2] (mkBookmark "x" p1) w);
    [reflexivity | reflexivity | constructor | unfold save_env_ok; simpl; auto | reflexivity].
Defined.

(** An [edit] that finds its alias prints "Updated ..." and leaves a
    config file from which the collection with that first match renamed is
    loaded. *)
Theorem edit_found_persists (a new : string) (pre post : list Bookmark) (b : Bookmark)
    (w : World) :
  load_or_initialize_config w = (w, Ok (mkConfig (pre ++ b :: post))) ->
  alias b = a -> no_alias a pre -> save_env_ok w ->
  paths_utf8 (mkConfig (pre ++ b :: post)) = true ->
  snd (main (Cmd.Edit a new) w) = Ok tt
  /\ stdout (fst (main (Cmd.Edit a new) w)) = stdout w ++ [UpdatedAlias a new]
  /\ snd (load_or_initialize_config (fst (main (Cmd.Edit a new) w)))
     = Ok (mkConfig (pre ++ mkBookmark new (path b) :: post)).
Proof.
  intros Hl Hb Hpre Henv Hu.
  destruct (toml_to_string_some (mkConfig (pre ++ mkBookmark new (path b) :: post))) as [t Ht].
  { rewrite paths_utf8_app in *; exact Hu. }
  rewrite (main_edit_found a new pre post b w t Hl Hb Hpre Henv Ht); cbn [fst snd].
  split; [reflexivity|]; split; [rewrite saved_stdout; reflexivity|].
  rewrite (load_saved t (push_line (UpdatedAlias a new) w) (mkConfig (pre ++ mkBookmark new (path b) :: post))); [reflexivity| |exact Ht].
  destruct Henv as [Hh _]; exact Hh.
Qed.

Lemma edit_found_persists_witness :
  let w := existing_config (Present (TomlText (TTable [("bookmarks", TArray
             [TTable [("alias", TString "y"); ("path", TString "/2")];
              TTable [("alias", TString "x"); ("path", TString "/1")];
              TTable [("alias", TString "x"); ("path", TString "/3")]])]))) in
  snd (main (Cmd.Edit "x" "z") w) = Ok tt
  /\ stdout (fst (main (Cmd.Edit "x" "z") w)) = stdout w ++ [UpdatedAlias "x" "z"]
  /\ snd (load_or_initialize_config (fst (main (Cmd.Edit "x" "z") w)))
     = Ok (mkConfig ([mkBookmark "y" p2] ++ mkBookmark "z" (path (mkBookmark "x" p1))
                     :: [mkBookmark "x" p3])).
Proof.
  intros w.
  apply (edit_found_persists "x" "z" [mkBookmark "y" p2] [mkBookmark "x" p3] (mkBookmark "x" p1) w);
    [reflexivity | reflexivity | repeat constructor; simpl; discriminate
    | unfold save_env_ok; simpl; auto | reflexivity].
Defined.

Lemma save_create_fail (c : Config) (w : World) (t : FileText) :
  home_found w = true -> config_dir_exists w = true -> toml_to_string c = Some t ->
  file_creatable w = false ->
  save_config c w = (w, Panic "Failed to create config file").
Proof.
  intros Hh Hd Ht Hc.
  unfold save_config, get_config_path, bind, get_world, ret, modify, expect, panic; simpl.
  rewrite Hh, Hd; simpl; rewrite Ht; simpl; rewrite Hc; reflexivity.
Qed.

(** [remove] and [edit] print their report before saving and [add] after:
    when the config file can be read but [File::create] fails on it (a
    read-only file), a [remove] that found its alias has already printed
    "Removed ..." although the file is unchanged, while the failing [add]
    prints nothing. *)
Theorem report_order_on_save_failure (a : string) (pre post : list Bookmark)
    (b : Bookmark) (p : PathBuf) (w : World) :
  load_or_initialize_config w = (w, Ok (mkConfig (pre ++ b :: post))) ->
  alias b = a -> no_alias a pre ->
  paths_utf8 (mkConfig (pre ++ b :: post)) = true -> utf8_valid p = true ->
  config_dir_exists w = true -> file_creatable w = false -> current_dir w = Some p ->
  main (Cmd.Remove a) w
    = (push_line (RemovedBookmark a) w, Panic "Failed to create config file")
  /\ main (Cmd.Add a) w = (w, Panic "Failed to create config file").
Proof.
  intros Hl Hb Hpre Hu Hpu Hd Hc Hp.
  assert (Hh : home_found w = true).
  { destruct (home_found w) eqn:E; [reflexivity|].
    unfold load_or_initialize_config, get_config_path, bind, get_world, panic in Hl;
      simpl in Hl; rewrite E in Hl; discriminate. }
  pose proof Hu as Hu'.
  rewrite paths_utf8_app in Hu'; apply andb_true_iff in Hu' as [Hu1 Hu2].
  unfold paths_utf8 in Hu2; simpl in Hu2; apply andb_true_iff in Hu2 as [_ Hu2].
  split.
  - destruct (toml_to_string_some (mkConfig (pre ++ post))) as [t Ht].
    { rewrite paths_utf8_app, Hu1; exact Hu2. }
    rewrite (main_load_ok (Cmd.Remove a) w _ Hl).
    change (bookmarks (mkConfig (pre ++ b :: post))) with (pre ++ b :: post).
    unfold remove_bookmark; rewrite (position_first a pre post b Hb Hpre), vec_remove_middle.
    rewrite (bind_step (lift _) _ w w _) by reflexivity; cbv beta; cbn [fst snd].
    unfold bind at 1, println, modify.
    apply (save_create_fail _ _ t); assumption.
  - destruct (toml_to_string_some (mkConfig (add_bookmark a p (pre ++ b :: post)))) as [t Ht].
    { unfold add_bookmark; rewrite paths_utf8_app, Hu; unfold paths_utf8; simpl;
        rewrite Hpu; reflexivity. }
    rewrite (main_load_ok (Cmd.Add a) w _ Hl).
    rewrite (bind_step get_world _ w w w) by reflexivity; cbv beta.
    rewrite Hp, (bind_step (expect (Some p) _) _ w w p) by reflexivity; cbv beta.
    unfold bind at 1; rewrite (save_create_fail _ _ t) by assumption; reflexivity.
Qed.

Lemma report_order_on_save_failure_witness :
  let w := mkWorld true true true
             (Present (TomlText (TTable [("bookmarks", TArray
                [TTable [("alias", TString "y"); ("path", TString "/2")];
                 TTable [("alias", TString "x"); ("path", TString "/1")];
                 TTable [("alias", TString "x"); ("path", TString "/3")]])])))
             false None (Some [x2f]) [] in
  main (Cmd.Remove "x") w
    = (push_line (RemovedBookmark "x") w, Panic "Failed to create config file")
  /\ main (Cmd.Add "x") w = (w, Panic "Failed to create config file").
Proof.
  intros w.
  apply (report_order_on_save_failure "x" [mkBookmark "y" p2] [mkBookmark "x" p3]
           (mkBookmark "x" p1) [x2f] w);
    first [reflexivity | repeat constructor; simpl; discriminate].
Defined.

(** Adding an alias that is not yet bookmarked and then removing it, in two
    runs, leaves a config file holding the original collection. *)
Theorem add_then_remove_restores (a : string) (p : PathBuf) (c : Config) (w : World) :
  load_or_initialize_config w = (w, Ok c) -> no_alias a (bookmarks c) ->
  current_dir w = Some p -> save_env_ok w ->
  paths_utf8 (mkConfig (add_bookmark a p (bookmarks c))) = true ->
  snd (run_all [Cmd.Add a; Cmd.Remove a] w) = Ok tt
  /\ snd (load_or_initialize_config (fst (run_all [Cmd.Add a; Cmd.Remove a] w))) = Ok c.
Proof.
  destruct c as [bs]; simpl; intros Hl Ha Hp Henv Hu.
  destruct (toml_to_string_some _ Hu) as [t Ht].
  pose proof Hu as Hu'; unfold add_bookmark in Hu'; rewrite paths_utf8_app in Hu'.
  apply andb_true_iff in Hu' as [Hbs _].
  destruct (toml_to_string_some (mkConfig (bs ++ [])) ) as [t' Ht'].
  { rewrite app_nil_r; exact Hbs. }
  assert (Hh : home_found w = true) by (destruct Henv; assumption).
  unfold run_all.
  rewrite (main_add_ok a p (mkConfig bs) w t Hl Hp Henv Ht).
  rewrite (main_remove_found a bs [] (mkBookmark a p)
             (push_line (AddedBookmark a) (saved t w)) t').
  - cbn [snd fst]; split; [reflexivity|].
    rewrite load_saved with (c := mkConfig (bs ++ [])); [rewrite app_nil_r; reflexivity| |exact Ht'].
    unfold saved, after_mkdir; destruct (config_dir_exists w); exact Hh.
  - apply load_saved_push; assumption.
  - reflexivity.
  - exact Ha.
  - apply push_line_env_ok, saved_env_ok, Henv.
  - exact Ht'.
Qed.

Lemma add_then_remove_restores_witness :
  let w := existing_config (Present (TomlText (TTable [("bookmarks", TArray
             [TTable [("alias", TString "y"); ("path", TString "/2")];
              TTable [("alias", TString "x"); ("path", TString "/1")]])]))) in
  snd (run_all [Cmd.Add "h"; Cmd.Remove "h"] w) = Ok tt
  /\ snd (load_or_initialize_config (fst (run_all [Cmd.Add "h"; Cmd.Remove "h"] w)))
     = Ok (mkConfig [mkBookmark "y" p2; mkBookmark "x" p1]).
Proof.
  intros w.
  apply add_then_remove_restores with (p := [x2f]);
    [reflexivity | repeat constructor; simpl; discriminate | reflexivity
    | unfold save_env_ok; simpl; auto | reflexivity].
Defined.

(** Renaming the first match of [a] to [b] and then [b] back to [a], in two
    runs, leaves a config file holding the original collection, provided no
    bookmark before that first match has alias [b]. *)
Theorem edit_then_edit_back_restores (a b : string) (pre post : list Bookmark)
    (x : Bookmark) (w : World) :
  load_or_initialize_config w = (w, Ok (mkConfig (pre ++ x :: post))) ->
  alias x = a -> no_alias a pre -> no_alias b pre -> save_env_ok w ->
  paths_utf8 (mkConfig (pre ++ x :: post)) = true ->
  snd (run_all [Cmd.Edit a b; Cmd.Edit b a] w) = Ok tt
  /\ snd (load_or_initialize_config (fst (run_all [Cmd.Edit a b; Cmd.Edit b a] w)))
     = Ok (mkConfig (pre ++ x :: post)).
Proof.
  intros Hl Hx Ha Hb Henv Hu.
  destruct (toml_to_string_some (mkConfig (pre ++ mkBookmark b (path x) :: post))) as [t Ht].
  { rewrite paths_utf8_app in *; exact Hu. }
  destruct (toml_to_string_some (mkConfig (pre ++ mkBookmark a (path (mkBookmark b (path x))) :: post)))
    as [t' Ht'].
  { rewrite paths_utf8_app in *; exact Hu. }
  assert (Hh : home_found w = true) by (destruct Henv; assumption).
  assert (Hx' : mkBookmark a (path (mkBookmark b (path x))) = x).
  { destruct x; simpl in *; subst; reflexivity. }
  unfold run_all.
  rewrite (main_edit_found a b pre post x w t Hl Hx Ha Henv Ht).
  rewrite (main_edit_found b a pre post (mkBookmark b (path x))
             (saved t (push_line (UpdatedAlias a b) w)) t').
  - cbn [snd fst]; split; [reflexivity|].
    rewrite load_saved with (c := mkConfig (pre ++ mkBookmark a (path (mkBookmark b (path x))) :: post));
      [rewrite Hx'; reflexivity| |exact Ht'].
    unfold saved, after_mkdir; destruct (config_dir_exists (push_line (UpdatedAlias a b) w)); exact Hh.
  - apply load_saved; [exact Hh| exact Ht].
  - reflexivity.
  - exact Hb.
  - apply saved_env_ok, push_line_env_ok, Henv.
  - exact Ht'.
Qed.

Lemma edit_then_edit_back_restores_witness :
  let w := existing_config (Present (TomlText (TTable [("bookmarks", TArray
             [TTable [("alias", TString "y"); ("path", TString "/2")];
              TTable [("alias", TString "x"); ("path", TString "/1")]])]))) in
  snd (run_all [Cmd.Edit "x" "z"; Cmd.Edit "z" "x"] w) = Ok tt
  /\ snd (load_or_initialize_config (fst (run_all [Cmd.Edit "x" "z"; Cmd.Edit "z" "x"] w)))
     = Ok (mkConfig ([mkBookmark "y" p2] ++ mkBookmark "x" p1 :: [])).
Proof.
  intros w.
  apply (edit_then_edit_back_restores "x" "z" [mkBookmark "y" p2] [] (mkBookmark "x" p1) w);
    [reflexivity | reflexivity | repeat constructor; simpl; discriminate
    | repeat constructor; simpl; discriminate | unfold save_env_ok; simpl; auto | reflexivity].
Defined.
